(** * Sizing of a multi-rotor drone: the optimisation notebook

    A shallow embedding of [06_SystemSizingCodeOptimization-Reference.ipynb].

    The notebook is a straight-line Python script.  It fixes the mission
    specification, the architecture and the reference components, loads the
    callable [sizing_code] from a serialised model, prints the initial design,
    runs one of two scipy solvers on it and prints the optimised design.

    - Python floats are modelled by exact rationals ([Q]); every literal of the
      notebook is a finite decimal and is represented exactly.
    - The deserialised [sizing_code] and the two scipy solvers are not part of
      the notebook: they are the fields of a [World].
    - The print statements of the notebook and the calls of [sizing_code] are
      effects; they are recorded, in program order, in the log of a writer
      monad [Py].  What a solver or the model writes to the console on its
      own is not part of the log. *)

From Stdlib Require Import QArith Qabs Qpower ZArith List String Bool Lia Lqa.
Import ListNotations.

Local Open Scope string_scope.
Local Open Scope Q_scope.
Local Open Scope list_scope.

(** A numpy array of floats. *)
Definition vec : Type := list Q.

(** ** Objectives and specifications *)

Definition M_pay : Q := 100.              (* [kg] load mass *)
Definition a_to : Q := 0.25 * 9.81.       (* [m/s2] acceleration during take off *)
Definition t_hov_spec : Q := 25.          (* [min] time of hover flight *)
Definition MTOW : Q := 360.               (* [kg] maximal mass *)
Definition MAX_TIME : bool := false.      (* objective selector *)

(** ** Architecture definition *)

Definition N_arm : Z := 4.                (* number of arms *)
Definition N_pro_arm : Z := 2.            (* number of propellers per arm *)
Definition N_pro : Z := (N_pro_arm * N_arm)%Z.

(** ** Reference parameters *)

Definition M_bat_ref : Q := 0.329.
Definition E_bat_ref : Q := 220 * 3600 * 0.329.
Definition P_esc_ref : Q := 3108.
Definition M_esc_ref : Q := 0.115.

Definition T_nom_mot_ref : Q := 2.32.
Definition T_max_mot_ref : Q := 85 / 70 * T_nom_mot_ref.
Definition R_mot_ref : Q := 0.03.
Definition M_mot_ref : Q := 0.575.
Definition K_mot_ref : Q := 0.03.
Definition T_mot_fr_ref : Q := 0.03.

Definition sigma_max : Q := 280e6 / 4.
Definition rho_s : Q := 1700.

Definition rho_air : Q := 1.18.
Definition ND_max : Q := 105000 / 60 * 0.0254.
Definition D_pro_ref : Q := 11 * 0.0254.
Definition M_pro_ref : Q := 0.53 * 0.0283.

(** ** Optimisation variables: the initial values *)

Definition beta_pro : Q := 0.33.          (* pitch/diameter ratio of the propeller *)
Definition k_os : Q := 3.2.               (* over sizing coefficient on the load mass *)
Definition k_ND : Q := 1.2.               (* slow down propeller coef *)
Definition k_mot : Q := 1.                (* over sizing coefficient on the motor torque *)
Definition k_speed_mot : Q := 1.2.        (* adaption winding coef on the motor speed *)
Definition k_mb : Q := 1.                 (* ratio battery/load mass *)
Definition k_vb : Q := 1.                 (* oversizing coefficient for voltage evaluation *)
Definition k_D : Q := 0.01.               (* aspect ratio e/c for the beam of the frame *)

(** Vector of parameters. *)
Definition parameters : vec :=
  [beta_pro; k_os; k_ND; k_mot; k_speed_mot; k_mb; k_vb; k_D].

(** ** Optimization bounds *)

(* beta, k_os, k_ND, k_mot, k_speed_mot, k_mb, k_vb, k_D *)
Definition bounds : list (Q * Q) :=
  [(0.3, 0.6); (1, 400); (1, 100); (1, 100); (1, 400); (0.1, 100); (1, 5); (0.1, 0.99)].

(** [lo <= v <= hi], decided. *)
Definition in_range (b : Q * Q) (v : Q) : bool :=
  Qle_bool (fst b) v && Qle_bool v (snd b).

(** Entry by entry test of a vector against a table of bounds; a vector of the
    wrong length is not within the bounds. *)
Fixpoint within (bs : list (Q * Q)) (v : vec) : bool :=
  match bs, v with
  | [], [] => true
  | b :: bs', q :: v' => in_range b q && within bs' v'
  | _, _ => false
  end.



(** A table of bounds whose pairs are ordered. *)
Definition well_formed (bs : list (Q * Q)) : Prop :=
  Forall (fun b => fst b <= snd b) bs.

(** ** Python values and effects *)

(** What a call of [sizing_code] may return: a float (the objective), an array
    (the constraints) or [None] (the printing mode). *)
Inductive Value : Type :=
| VFloat (q : Q)
| VArray (a : vec)
| VNone.

(** The observable effects of the notebook, in program order. *)
Inductive Event : Type :=
| EPrint (s : string)                         (* print(s) *)
| ESizing (x : vec) (mode : string)           (* a call sizing_code(x, mode) *)
| ESolver (name : string) (keywords : list string).  (* entry into a scipy solver *)

(** Writer monad over the log of events. *)
Definition Py (A : Type) : Type := (A * list Event)%type.

Definition ret {A} (a : A) : Py A := (a, []).

Definition bind {A B} (m : Py A) (f : A -> Py B) : Py B :=
  let (b, l) := f (fst m) in (b, snd m ++ l).

Definition tell (l : list Event) : Py unit := (tt, l).

Definition print (s : string) : Py unit := tell [EPrint s].

Definition value {A} (m : Py A) : A := fst m.
Definition log {A} (m : Py A) : list Event := snd m.

Notation "x <- m ;; k" := (bind m (fun x => k))
  (at level 61, m at next level, right associativity).
Notation "m ;;; k" := (bind m (fun _ => k))
  (at level 61, right associativity).

(** ** Keyword arguments of a solver call *)

Inductive Arg : Type :=
| AFun (f : vec -> Py Value)
| AVec (x : vec)
| ABounds (b : list (Q * Q))
| AInt (n : Z)
| AFloat (q : Q).

Definition Kwargs : Type := list (string * Arg).

Fixpoint keyword (name : string) (kw : Kwargs) : option Arg :=
  match kw with
  | [] => None
  | (k, a) :: kw' => if String.eqb name k then Some a else keyword name kw'
  end.

(** ** Solvers

    A scipy solver is a black box that evaluates the callables it was given at
    points of its choice and finally returns.  [Ask name f _ x k] is one
    evaluation of the callable [f], received under the keyword [name], at [x];
    [k] is what the solver does with the value.  A solver only calls what it
    received, hence the proof carried by [Ask].  The console output of a
    solver (the summary that fmin_slsqp prints by default) is not modelled. *)
Inductive Search (kw : Kwargs) (R : Type) : Type :=
| Return (r : R)
| Ask (name : string) (f : vec -> Py Value)
      (supplied : keyword name kw = Some (AFun f))
      (x : vec) (k : Value -> Search kw R).

Arguments Return {kw R} r.
Arguments Ask {kw R} name f supplied x k.

Fixpoint run_search {kw : Kwargs} {R : Type} (s : Search kw R) : Py R :=
  match s with
  | Return r => ret r
  | Ask _ f _ x k => v <- f x ;; run_search (k v)
  end.

Module OptimizeResult.
(** scipy.optimize.OptimizeResult, reduced to the attributes of interest. *)
Record t : Type := mk { x : vec; fun_ : Value }.
End OptimizeResult.

(** What the notebook takes from its environment. *)
Record World : Type := {
  (* the value returned by the callable that serializer.load_model yields *)
  model : vec -> string -> Value;
  (* scipy.optimize.fmin_slsqp; returns the minimiser (full_output = 0) *)
  fmin_slsqp : forall kw : Kwargs, Search kw vec;
  (* scipy.optimize.differential_evolution *)
  differential_evolution : forall kw : Kwargs, Search kw OptimizeResult.t
}.

Definition call {R} (name : string) (solver : forall kw : Kwargs, Search kw R)
  (kw : Kwargs) : Py R :=
  tell [ESolver name (map fst kw)] ;;; run_search (solver kw).

(** ** The notebook *)

(** sizing_code = serializer.load_model(file_path) *)
Definition sizing_code (w : World) (x : vec) (mode : string) : Py Value :=
  tell [ESizing x mode] ;;; ret (model w x mode).

Definition dashes : string := "-----------------------------------------------".

(** Initial characteristics before optimization. *)
Definition initial_report (w : World) : Py unit :=
  print dashes ;;;
  print "Initial characteristics before optimization :" ;;;
  _ <- sizing_code w parameters "Prt" ;;
  print dashes.

Definition contrainte (w : World) : vec -> Py Value := fun x => sizing_code w x "Const".
Definition objectif (w : World) : vec -> Py Value := fun x => sizing_code w x "Obj".
Definition objectifP (w : World) : vec -> Py Value := fun x => sizing_code w x "ObjP".

(** Optimization algorithm choice. *)
Definition SLSQP : bool := false.

Definition slsqp_kwargs (w : World) : Kwargs :=
  [("func", AFun (objectif w)); ("x0", AVec parameters); ("bounds", ABounds bounds);
   ("f_ieqcons", AFun (contrainte w)); ("iter", AInt 1500); ("acc", AFloat 1e-12)].

Definition de_kwargs (w : World) : Kwargs :=
  [("func", AFun (objectifP w)); ("bounds", ABounds bounds); ("tol", AFloat 1e-12)].

(** The type of the Python variable [result] depends on the branch taken. *)
Definition ResultT (slsqp : bool) : Type :=
  if slsqp then vec else OptimizeResult.t.

Definition optimize (w : World) (slsqp : bool) : Py (ResultT slsqp) :=
  match slsqp as b return Py (ResultT b) with
  | true => call "scipy.optimize.fmin_slsqp" (fmin_slsqp w) (slsqp_kwargs w)
  | false => call "scipy.optimize.differential_evolution" (differential_evolution w)
               (de_kwargs w)
  end.

(** The vector handed to [sizing_code] after the search: [result] in the first
    branch, [result.x] in the second. *)
Definition best (slsqp : bool) : ResultT slsqp -> vec :=
  match slsqp as b return ResultT b -> vec with
  | true => fun result => result
  | false => fun result => OptimizeResult.x result
  end.

(** Final characteristics after optimization. *)
Definition final_report (w : World) (slsqp : bool) (result : ResultT slsqp) : Py unit :=
  print dashes ;;;
  print "Final characteristics after optimization :" ;;;
  _ <- sizing_code w (best slsqp result) "Obj" ;;
  _ <- sizing_code w (best slsqp result) "Prt" ;;
  print dashes.

Definition optimization (w : World) (slsqp : bool) : Py unit :=
  result <- optimize w slsqp ;;
  final_report w slsqp result.

(** The notebook, run from top to bottom, for a given value of the flag. *)
Definition run (w : World) (slsqp : bool) : Py unit :=
  initial_report w ;;; optimization w slsqp.

(** The notebook as shipped. *)
Definition notebook (w : World) : Py unit := run w SLSQP.

(** ** Reading a log *)

Definition sizing_modes (l : list Event) : list string :=
  flat_map (fun e => match e with ESizing _ m => [m] | _ => [] end) l.

Definition sizing_points (l : list Event) : list vec :=
  flat_map (fun e => match e with ESizing x _ => [x] | _ => [] end) l.

Definition solvers (l : list Event) : list string :=
  flat_map (fun e => match e with ESolver n _ => [n] | _ => [] end) l.

Definition is_print (e : Event) : bool :=
  match e with EPrint _ => true | _ => false end.

(** The log without its prints. *)
Definition calls (l : list Event) : list Event :=
  filter (fun e => negb (is_print e)) l.


(** A call of [sizing_code] in one of the given modes. *)
Definition sizing_in (modes : list string) (e : Event) : Prop :=
  exists x m, e = ESizing x m /\ In m modes.

(** The four mode strings that occur in the notebook. *)
Definition notebook_mode_tags : list string := ["Obj"; "ObjP"; "Const"; "Prt"].

(** ** A test world

    A small executable environment for running the notebook: the model adds
    the coefficients up, differential evolution tries the lower corner of the
    bounds, SLSQP tries its starting point. *)

Definition sum_model (x : vec) (mode : string) : Value :=
  if String.eqb mode "Prt" then VNone
  else if String.eqb mode "Const" then VArray (map (fun q => q - 1) x)
  else VFloat (fold_right Qplus 0 x).

(** Calls the callable under [name] once, at [x], when there is one. *)
Definition ask_once {R} (kw : Kwargs) (name : string) (x : vec)
  (k : Value -> Search kw R) : Search kw R :=
  match keyword name kw as o return keyword name kw = o -> Search kw R with
  | Some (AFun f) => fun supplied => Ask name f supplied x k
  | _ => fun _ => k VNone
  end eq_refl.

Definition corner_search (kw : Kwargs) : Search kw OptimizeResult.t :=
  match keyword "bounds" kw with
  | Some (ABounds b) =>
      ask_once kw "func" (map fst b) (fun v => Return (OptimizeResult.mk (map fst b) v))
  | _ => Return (OptimizeResult.mk [] VNone)
  end.

Definition start_search (kw : Kwargs) : Search kw vec :=
  match keyword "x0" kw with
  | Some (AVec x0) =>
      ask_once kw "func" x0 (fun _ => ask_once kw "f_ieqcons" x0 (fun _ => Return x0))
  | _ => Return []
  end.

Definition test_world : World :=
  {| model := sum_model;
     fmin_slsqp := start_search;
     differential_evolution := corner_search |}.

(** * The sizing model, from its specification

    The callable [sizing_code] is loaded from the serialised file
    [models/sizing_code], which is not in the notebook.  Its behaviour is
    taken from the specification of the evaluator (components LoopResolver,
    ConstraintSet, ObjectiveFunction and SizingModel).  The scaling laws and
    the margins, for which the specification gives no formulas, are
    parameters of the model. *)

Module SizingModel.

(** Modelled from the spec: the four output modes of the evaluator, which is
    not in the notebook. *)
Inductive Mode : Type := Obj | ObjP | Const | Report.

(** Modelled from the spec: the design point produced by the LoopResolver, a
    self-consistent (thrust, mass) pair, with the outcome of the iteration. *)
Record DesignPoint : Type := {
  thrust : Q;             (* hover thrust per propeller *)
  total_mass : Q;
  converged : bool;       (* false: LoopDivergence, the last iterate is kept *)
  iterations : nat
}.

(** Modelled from the spec: the tagged result of one evaluation. *)
Inductive Result : Type :=
| Objective (m : Q)
| Penalized (m : Q)
| Constraints (c : list Q)
| Reported (dp : DesignPoint) (c : list Q).

(** Modelled from the spec: the error of the evaluator that concerns the
    bounds. *)
Inductive Error : Type := BoundViolation.

(** Modelled from the spec: what a call of the evaluator yields, a result or
    an error raised to the caller. *)
Inductive Outcome : Type :=
| Ok (r : Result)
| Raised (e : Error).

(** Modelled from the spec: the policy for a vector that violates the bounds,
    "clamped or rejected per configuration". *)
Inductive BoundPolicy : Type := Clamp | Reject.

(** [a < b], decided. *)
Definition Qlt_bool (a b : Q) : bool := negb (Qle_bool b a).

(** Modelled from the spec: clamping of one coefficient to its bound. *)
Definition clamp1 (b : Q * Q) (v : Q) : Q :=
  if Qlt_bool v (fst b) then fst b
  else if Qlt_bool (snd b) v then snd b
  else v.

(** Modelled from the spec: clamping of a coefficient vector, entry by entry. *)
Fixpoint clamp (bs : list (Q * Q)) (v : vec) : vec :=
  match bs, v with
  | b :: bs', q :: v' => clamp1 b q :: clamp bs' v'
  | _, _ => v
  end.

(** Modelled from the spec: the acceleration of gravity, as in the take-off
    acceleration [0.25 * 9.81] of the mission. *)
Definition g : Q := 9.81.

(** Modelled from the spec: required hover thrust per propeller, from the total
    mass and the propeller count. *)
Definition hover_thrust (M : Q) : Q := M * g / inject_Z N_pro.

(** Modelled from the spec: the negative part of a constraint margin. *)
Definition violation (m : Q) : Q := if Qle_bool 0 m then 0 else m.

(** Modelled from the spec: the sum of squared negative constraint margins. *)
Definition squared_violations (c : list Q) : Q :=
  fold_right (fun m acc => violation m * violation m + acc) 0 c.

(** Modelled from the spec: the sign convention of the ConstraintVector, a
    margin is satisfied when it is non-negative. *)
Definition feasible (c : list Q) : bool := forallb (Qle_bool 0) c.

Section Evaluator.

(** The parts the specification leaves open. *)

(* ScalingLawLibrary: size propeller, motor, ESC and battery from the hover
   thrust and sum the masses into a new total. *)
Variable sized_total : vec -> Q -> Q.
(* ConstraintSet: the signed margins of a resolved design point. *)
Variable margins : vec -> DesignPoint -> list Q.
(* ObjectiveFunction: the penalty multiplier. *)
Variable penalty_weight : Q.
(* LoopResolver: convergence tolerance and iteration cap. *)
Variable tolerance : Q.
Variable max_iterations : nat.

(** Modelled from the spec: the fixed-point iteration of the LoopResolver.
    [fuel] is what is left of the iteration cap, [n] counts the steps taken.
    The loop stops when the relative change of the total mass is below the
    tolerance.  Out of fuel, the last iterate is returned, marked as not
    converged.  (The quotient of [Q] is total, [x / 0 = 0].) *)
Fixpoint resolve (fuel : nat) (n : nat) (c : vec) (M : Q) : DesignPoint :=
  match fuel with
  | O => {| thrust := hover_thrust M; total_mass := M;
            converged := false; iterations := n |}
  | S fuel' =>
      let M' := sized_total c (hover_thrust M) in
      if Qlt_bool (Qabs (M' - M) / Qabs M) tolerance
      then {| thrust := hover_thrust M; total_mass := M';
              converged := true; iterations := S n |}
      else resolve fuel' (S n) c M'
  end.

(** Modelled from the spec: the initial total-mass guess, k_os x payload. *)
Definition initial_guess (c : vec) : Q := nth 1 c 0 * M_pay.

(** Modelled from the spec: one pass of the LoopResolver, from the initial
    guess, under the iteration cap. *)
Definition solve (c : vec) : DesignPoint :=
  resolve max_iterations 0 c (initial_guess c).

(** Modelled from the spec: ObjectiveFunction, mode Obj, the total mass. *)
Definition objective (dp : DesignPoint) : Q := total_mass dp.

(** Modelled from the spec: ObjectiveFunction, mode ObjP, the total mass plus
    the multiplier times the sum of squared negative margins. *)
Definition penalized (c : vec) (dp : DesignPoint) : Q :=
  total_mass dp + penalty_weight * squared_violations (margins c dp).

(** Modelled from the spec: the projection of the design point by mode. *)
Definition dispatch (mode : Mode) (c : vec) (dp : DesignPoint) : Result :=
  match mode with
  | Obj => Objective (objective dp)
  | ObjP => Penalized (penalized c dp)
  | Const => Constraints (margins c dp)
  | Report => Reported dp (margins c dp)
  end.

(** Modelled from the spec: validation of the coefficients against the bounds. *)
Definition validate (policy : BoundPolicy) (c : vec) : Error + vec :=
  match policy with
  | Clamp => inr (clamp bounds c)
  | Reject => if within bounds c then inr c else inl BoundViolation
  end.

(** Modelled from the spec: the evaluator under a given policy: validate,
    resolve the loop, dispatch. *)
Definition evaluate_with (policy : BoundPolicy) (c : vec) (mode : Mode) : Outcome :=
  match validate policy c with
  | inl e => Raised e
  | inr c' => Ok (dispatch mode c' (solve c'))
  end.

(** Modelled from the spec: the single entry point of the SizingModel, under
    the policy of the specification for BoundViolation, clamp before
    evaluation. *)
Definition evaluate : vec -> Mode -> Outcome := evaluate_with Clamp.

End Evaluator.

(** Modelled from the spec: the names of the four modes, as the specification
    writes them. *)
Definition spec_mode_tags : list string := ["Obj"; "ObjP"; "Const"; "Report"].

(** An instance of the open parts, for running the evaluator: the total is
    the payload, a battery of [k_mb] times the payload and, per propeller, a
    hundredth of the thrust; the mass budget and a thickness limit are the
    margins. *)
Definition toy_total (c : vec) (F : Q) : Q :=
  M_pay + nth 5 c 0 * M_pay + inject_Z N_pro * (F / 100).

Definition toy_margins (c : vec) (dp : DesignPoint) : list Q :=
  [MTOW - total_mass dp; nth 7 c 0 - 0.5].

Definition toy_evaluate : vec -> Mode -> Outcome :=
  evaluate toy_total toy_margins 1e9 1e-6 100.

(** Modelled from the spec: the subsystems that the LoopResolver sizes from
    the hover thrust. *)
Inductive Subsystem : Type := Propeller | Motor | ESC | Battery.

Definition subsystems : list Subsystem := [Propeller; Motor; ESC; Battery].

(** Modelled from the spec: a scaling law of the ScalingLawLibrary, given by
    its reference instance (reference value, reference parameter) and its
    exponent.  The exponents of the model are integers; a fractional exponent
    has no value in [Q]. *)
Record ScalingLaw : Type := {
  value_ref : Q;
  param_ref : Q;
  exponent : Z
}.

(** Modelled from the spec: the power-law similarity relation
    value / value_ref = (param / param_ref) ^ exponent. *)
Definition scale (l : ScalingLaw) (param : Q) : Q :=
  value_ref l * (param / param_ref l) ^ exponent l.

(** Modelled from the spec: size propeller, motor, ESC and battery from the
    thrust and sum the masses into a new total.  [required s c F] is the
    performance required of subsystem [s] for the coefficients [c] and the
    thrust [F], which the specification leaves open. *)
Definition scaled_total (law : Subsystem -> ScalingLaw)
  (required : Subsystem -> vec -> Q -> Q) (c : vec) (F : Q) : Q :=
  fold_right Qplus 0 (map (fun s => scale (law s) (required s c F)) subsystems).

(** Modelled from the spec: one turn of the loop, from a total mass to the
    thrust it requires and to the total mass of the components sized for
    this thrust. *)
Definition step (sized_total : vec -> Q -> Q) (c : vec) (M : Q) : Q :=
  sized_total c (hover_thrust M).

(** Modelled from the spec: the [k]-th iterate of the loop, from the initial
    guess. *)
Definition iterate (sized_total : vec -> Q -> Q) (c : vec) (k : nat) : Q :=
  Nat.iter k (step sized_total c) (initial_guess c).


(** An instance of the scaling laws: the reference components of the
    notebook, the propeller mass following the cube of the diameter and the
    battery mass the energy, as the specification has them; the exponents of
    motor and ESC, which it leaves open, are taken as 1. *)
Definition reference_law (s : Subsystem) : ScalingLaw :=
  match s with
  | Propeller => {| value_ref := M_pro_ref; param_ref := D_pro_ref; exponent := 3 |}
  | Motor => {| value_ref := M_mot_ref; param_ref := T_nom_mot_ref; exponent := 1 |}
  | ESC => {| value_ref := M_esc_ref; param_ref := P_esc_ref; exponent := 1 |}
  | Battery => {| value_ref := M_bat_ref; param_ref := E_bat_ref; exponent := 1 |}
  end.

(** An instance of the required performances, for running the evaluator:
    each grows with the thrust, the motor torque with [k_mot] and the battery
    energy with [k_mb]. *)
Definition toy_required (s : Subsystem) (c : vec) (F : Q) : Q :=
  match s with
  | Propeller => F / 1000
  | Motor => nth 3 c 0 * F / 100
  | ESC => F * 10
  | Battery => nth 5 c 0 * F * 10000
  end.

End SizingModel.

(** * Reading a run against its solver

    Further ways of reading the log of a run, and the view a solver has of
    the model through the callables of the notebook. *)

(** The points at which the printing mode 'Prt' was evaluated. *)
Definition report_points (l : list Event) : list vec :=
  flat_map (fun e => match e with
                     | ESizing x m => if String.eqb m "Prt" then [x] else []
                     | _ => []
                     end) l.

(** A search answered by a function of the keyword and the point, without any
    effect; the questions asked are returned with the result, in order. *)
Fixpoint run_oracle {kw : Kwargs} {R : Type} (oracle : string -> vec -> Value)
  (s : Search kw R) : R * list (string * vec) :=
  match s with
  | Return r => (r, [])
  | Ask name _ _ x k =>
      let (r, asked) := run_oracle oracle (k (oracle name x)) in
      (r, (name, x) :: asked)
  end.

(** What the callables handed to fmin_slsqp compute: func is [sizing_code] in
    mode 'Obj', f_ieqcons is [sizing_code] in mode 'Const'. *)
Definition slsqp_mode (name : string) : string :=
  if String.eqb name "func" then "Obj" else "Const".

Definition slsqp_oracle (w : World) (name : string) (x : vec) : Value :=
  model w x (slsqp_mode name).

(** What the callable handed to differential_evolution computes. *)
Definition de_oracle (w : World) (name : string) (x : vec) : Value :=
  model w x "ObjP".

(** The events of a list of questions, each one evaluation of the model. *)
Definition asked_events (mode : string -> string) (asked : list (string * vec))
  : list Event :=
  map (fun q => ESizing (snd q) (mode (fst q))) asked.

(** The solver that a run selects, compared between two worlds. *)
Definition same_selected_solver (w w' : World) (slsqp : bool) : Prop :=
  if slsqp then fmin_slsqp w = fmin_slsqp w'
  else differential_evolution w = differential_evolution w'.

(** The test world with an SLSQP that returns at once. *)
Definition idle_slsqp_world : World :=
  {| model := sum_model;
     fmin_slsqp := fun kw => Return [];
     differential_evolution := corner_search |}.

(** * Properties *)

Import SizingModel.

(** ** Comparisons and bounds *)

Lemma Qlt_bool_iff (a b : Q) : Qlt_bool a b = true <-> a < b.
Proof.
  unfold Qlt_bool. rewrite negb_true_iff.
  split; intro H.
  - apply Qnot_le_lt. intro Hle. apply Qle_bool_iff in Hle. congruence.
  - destruct (Qle_bool b a) eqn:E; [|reflexivity].
    apply Qle_bool_iff in E. exfalso. apply (Qlt_not_le _ _ H E).
Qed.

Lemma Qlt_bool_false (a b : Q) : Qlt_bool a b = false <-> b <= a.
Proof.
  unfold Qlt_bool. rewrite negb_false_iff. apply Qle_bool_iff.
Qed.

Lemma in_range_spec (b : Q * Q) (v : Q) :
  in_range b v = true <-> fst b <= v /\ v <= snd b.
Proof.
  unfold in_range. rewrite andb_true_iff, !Qle_bool_iff. tauto.
Qed.

Lemma within_length (bs : list (Q * Q)) :
  forall v, within bs v = true -> List.length v = List.length bs.
Proof.
  induction bs as [|b bs IH]; intros [|q v] H; simpl in *; try discriminate.
  - reflexivity.
  - apply andb_true_iff in H. destruct H as [_ H]. f_equal. auto.
Qed.


(** ** Clamping *)

Lemma clamp1_in_range (b : Q * Q) (v : Q) :
  fst b <= snd b -> in_range b (clamp1 b v) = true.
Proof.
  intro Hb. unfold clamp1.
  destruct (Qlt_bool v (fst b)) eqn:E1.
  - apply in_range_spec. split; [apply Qle_refl | exact Hb].
  - destruct (Qlt_bool (snd b) v) eqn:E2.
    + apply in_range_spec. split; [exact Hb | apply Qle_refl].
    + apply Qlt_bool_false in E1, E2. apply in_range_spec. tauto.
Qed.

Lemma clamp1_fixes (b : Q * Q) (v : Q) :
  in_range b v = true -> clamp1 b v = v.
Proof.
  intro H. apply in_range_spec in H. destruct H as [Hlo Hhi].
  unfold clamp1.
  destruct (Qlt_bool v (fst b)) eqn:E1.
  - apply Qlt_bool_iff in E1. exfalso. apply (Qlt_not_le _ _ E1 Hlo).
  - destruct (Qlt_bool (snd b) v) eqn:E2; [|reflexivity].
    apply Qlt_bool_iff in E2. exfalso. apply (Qlt_not_le _ _ E2 Hhi).
Qed.

Lemma bounds_well_formed : well_formed bounds.
Proof.
  unfold well_formed, bounds.
  repeat (constructor; [simpl; lra|]). constructor.
Qed.

Lemma clamp_within (bs : list (Q * Q)) :
  well_formed bs ->
  forall v, List.length v = List.length bs -> within bs (clamp bs v) = true.
Proof.
  induction 1 as [|b bs Hb _ IH]; intros [|q v] Hlen; simpl in *;
    try discriminate; try reflexivity.
  rewrite clamp1_in_range by exact Hb. simpl. apply IH. lia.
Qed.


Lemma clamp_idempotent (bs : list (Q * Q)) :
  well_formed bs -> forall v, clamp bs (clamp bs v) = clamp bs v.
Proof.
  induction 1 as [|b bs Hb _ IH]; intros v.
  - destruct v; reflexivity.
  - destruct v as [|q v]; [reflexivity|]. simpl.
    rewrite (clamp1_fixes b (clamp1 b q)) by (apply clamp1_in_range; exact Hb).
    rewrite IH. reflexivity.
Qed.

Lemma clamp_nth_error (bs : list (Q * Q)) :
  forall v i b q,
    nth_error bs i = Some b -> nth_error v i = Some q ->
    nth_error (clamp bs v) i = Some (clamp1 b q).
Proof.
  induction bs as [|b0 bs IH]; intros [|q0 v] [|i] b q Hb Hq; simpl in *;
    try discriminate.
  - injection Hb as <-. injection Hq as <-. reflexivity.
  - apply IH; assumption.
Qed.

Lemma clamp1_cases (b : Q * Q) (v : Q) :
  fst b <= snd b ->
  (v < fst b -> clamp1 b v = fst b) /\
  (snd b < v -> clamp1 b v = snd b) /\
  (fst b <= v <= snd b -> clamp1 b v = v).
Proof.
  intro Hb. unfold clamp1. split; [|split].
  - intro H. apply Qlt_bool_iff in H. rewrite H. reflexivity.
  - intro H.
    assert (H1 : Qlt_bool v (fst b) = false)
      by (apply Qlt_bool_false; apply Qle_trans with (y := snd b);
          [exact Hb | apply Qlt_le_weak, H]).
    apply Qlt_bool_iff in H. rewrite H1, H. reflexivity.
  - intros [Hlo Hhi].
    apply Qlt_bool_false in Hlo, Hhi. rewrite Hlo, Hhi. reflexivity.
Qed.

(** ** The LoopResolver *)

Lemma N_pro_value : inject_Z N_pro == 8.
Proof. reflexivity. Qed.





Section LoopResolver.

Variable sized_total : vec -> Q -> Q.
Variable tolerance : Q.
Variable c : vec.

Local Notation "'next'" := (step sized_total c).




End LoopResolver.

(** ** The penalty *)

Lemma violation_square_nonneg (m : Q) : 0 <= violation m * violation m.
Proof.
  unfold violation. destruct (Qle_bool 0 m) eqn:E; [lra|].
  assert (m < 0) by (apply Qlt_bool_iff; unfold Qlt_bool; rewrite E; reflexivity).
  nra.
Qed.

Lemma squared_violations_nonneg (c : list Q) : 0 <= squared_violations c.
Proof.
  induction c as [|m c IH]; simpl; [lra|].
  pose proof (violation_square_nonneg m). lra.
Qed.

Lemma squared_violations_feasible (c : list Q) :
  feasible c = true -> squared_violations c == 0.
Proof.
  induction c as [|m c IH]; simpl; intro H; [reflexivity|].
  apply andb_true_iff in H. destruct H as [Hm H].
  unfold violation. rewrite Hm, (IH H). lra.
Qed.

Lemma squared_violations_infeasible (c : list Q) :
  feasible c = false -> 0 < squared_violations c.
Proof.
  induction c as [|m c IH]; simpl; intro H; [discriminate|].
  apply andb_false_iff in H.
  pose proof (squared_violations_nonneg c) as Hc.
  pose proof (violation_square_nonneg m) as Hm.
  destruct (Qle_bool 0 m) eqn:E.
  - destruct H as [H|H]; [discriminate|]. specialize (IH H). lra.
  - assert (m < 0) by (apply Qlt_bool_iff; unfold Qlt_bool; rewrite E; reflexivity).
    unfold violation. rewrite E.
    assert (0 < m * m) by nra. lra.
Qed.

Lemma feasible_spec (c : list Q) :
  feasible c = true <-> Forall (fun m => 0 <= m) c.
Proof.
  unfold feasible. rewrite forallb_forall, Forall_forall.
  split; intros H m Hm; apply Qle_bool_iff, H, Hm.
Qed.

Lemma infeasible_spec (c : list Q) :
  feasible c = false <-> Exists (fun m => m < 0) c.
Proof.
  split.
  - induction c as [|m c IH]; simpl; [discriminate|].
    intro H. apply andb_false_iff in H. destruct H as [H|H].
    + left. apply Qlt_bool_iff. unfold Qlt_bool. rewrite H. reflexivity.
    + right. apply IH, H.
  - induction 1 as [m c Hm | m c _ IH]; simpl; apply andb_false_iff.
    + left. apply Qlt_bool_iff in Hm. unfold Qlt_bool in Hm.
      apply negb_true_iff in Hm. exact Hm.
    + right. exact IH.
Qed.

(** ** The evaluator of the specification *)



Section ScaledEvaluator.

Variable law : Subsystem -> ScalingLaw.
Variable required : Subsystem -> vec -> Q -> Q.
Variable margins : vec -> DesignPoint -> list Q.
Variable penalty_weight : Q.
Variable tolerance : Q.
Variable max_iterations : nat.

Local Notation "'total'" := (scaled_total law required).


End ScaledEvaluator.

Section EvaluatorProperties.

Variable sized_total : vec -> Q -> Q.
Variable margins : vec -> DesignPoint -> list Q.
Variable penalty_weight : Q.
Variable tolerance : Q.
Variable max_iterations : nat.

Local Notation "'evaluate''" :=
  (evaluate sized_total margins penalty_weight tolerance max_iterations).
Local Notation "'solve''" := (solve sized_total tolerance max_iterations).
Local Notation "'evaluate_under'" :=
  (evaluate_with sized_total margins penalty_weight tolerance max_iterations).

(** C4.  A vector of eight coefficients with an entry outside its declared
    bound is not rejected.  The evaluator returns the result of resolving
    and dispatching the clamped vector, in which every entry below its lower
    bound is replaced by that lower bound, every entry above its upper bound
    by that upper bound, and every other entry is kept; this vector is within
    the bounds, and the evaluation of it is the same evaluation.  Under the
    rejecting policy the same input raises BoundViolation, and the clamped
    vector is accepted with the same result. *)
Theorem evaluate_clamps (c : vec) (mode : Mode) :
  List.length c = 8%nat ->
  within bounds c = false ->
  exists c' : vec,
    evaluate' c mode =
      Ok (dispatch margins penalty_weight mode c'
            (solve sized_total tolerance max_iterations c')) /\
    evaluate' c mode = evaluate' c' mode /\
    within bounds c' = true /\
    (forall i lo hi v,
       nth_error bounds i = Some (lo, hi) -> nth_error c i = Some v ->
       exists v',
         nth_error c' i = Some v' /\
         (v < lo -> v' = lo) /\
         (hi < v -> v' = hi) /\
         (lo <= v <= hi -> v' = v)) /\
    evaluate_under Reject c mode = Raised BoundViolation /\
    evaluate_under Reject c' mode = evaluate' c mode.
Proof.
  intros Hlen Hout. exists (clamp bounds c).
  assert (Hin : within bounds (clamp bounds c) = true)
    by (apply clamp_within; [exact bounds_well_formed | exact Hlen]).
  split; [reflexivity|]. split; [|split; [exact Hin|split; [|split]]].
  - unfold evaluate, evaluate_with, validate.
    rewrite (clamp_idempotent bounds bounds_well_formed). reflexivity.
  - intros i lo hi v Hb Hv.
    exists (clamp1 (lo, hi) v). split; [exact (clamp_nth_error bounds c i _ _ Hb Hv)|].
    apply (clamp1_cases (lo, hi) v).
    pose proof bounds_well_formed as Hwf. unfold well_formed in Hwf.
    rewrite Forall_forall in Hwf. apply (Hwf (lo, hi)).
    apply nth_error_In with (n := i). exact Hb.
  - unfold evaluate_with, validate. rewrite Hout. reflexivity.
  - unfold evaluate, evaluate_with, validate. rewrite Hin. reflexivity.
Qed.

(** C7.  With a positive penalty weight, the outputs of the modes Obj and ObjP
    on the same coefficients are equal when every margin of the resolved
    design point is non-negative, and the output of ObjP is strictly larger
    when some margin is negative. *)
Theorem penalty_correct (c : vec) :
  0 < penalty_weight ->
  exists m p : Q,
    evaluate' c Obj = Ok (Objective m) /\
    evaluate' c ObjP = Ok (Penalized p) /\
    (Forall (fun x => 0 <= x)
       (margins (clamp bounds c) (solve' (clamp bounds c))) -> p == m) /\
    (Exists (fun x => x < 0)
       (margins (clamp bounds c) (solve' (clamp bounds c))) -> m < p).
Proof.
  intro Hw.
  exists (objective (solve' (clamp bounds c))).
  exists (penalized margins penalty_weight (clamp bounds c) (solve' (clamp bounds c))).
  split; [reflexivity|]. split; [reflexivity|].
  unfold penalized, objective. split; intro H.
  - apply feasible_spec, squared_violations_feasible in H. rewrite H. ring.
  - apply infeasible_spec, squared_violations_infeasible in H.
    assert (0 < penalty_weight * squared_violations
                  (margins (clamp bounds c) (solve' (clamp bounds c))))
      by (apply Qmult_lt_0_compat; assumption).
    lra.
Qed.

End EvaluatorProperties.


(** Two turns of the loop under a cap of two: no convergence, and the design
    point is the second iterate. *)
Example loop_falls_back :
  converged (solve (scaled_total reference_law toy_required) 1e-6 2
               (clamp bounds parameters)) = false /\
  iterations (solve (scaled_total reference_law toy_required) 1e-6 2
                (clamp bounds parameters)) = 2%nat /\
  total_mass (solve (scaled_total reference_law toy_required) 1e-6 2
                (clamp bounds parameters))
  = iterate (scaled_total reference_law toy_required) (clamp bounds parameters) 2.
Proof. vm_compute. repeat split. Qed.

(** The initial vector of the notebook, whose last entry is below its bound:
    the evaluation is that of the vector with 0.1 in the last place. *)
Lemma evaluate_clamps_witness :
  exists c' : vec,
    toy_evaluate parameters Report =
      Ok (dispatch toy_margins 1e9 Report c' (solve toy_total 1e-6 100 c')) /\
    toy_evaluate parameters Report = toy_evaluate c' Report /\
    within bounds c' = true /\
    (forall i lo hi v,
       nth_error bounds i = Some (lo, hi) -> nth_error parameters i = Some v ->
       exists v',
         nth_error c' i = Some v' /\
         (v < lo -> v' = lo) /\
         (hi < v -> v' = hi) /\
         (lo <= v <= hi -> v' = v)) /\
    evaluate_with toy_total toy_margins 1e9 1e-6 100 Reject parameters Report
      = Raised BoundViolation /\
    evaluate_with toy_total toy_margins 1e9 1e-6 100 Reject c' Report
      = toy_evaluate parameters Report.
Proof.
  apply (evaluate_clamps toy_total toy_margins 1e9 1e-6 100 parameters Report).
  - reflexivity.
  - vm_compute. reflexivity.
Defined.

Example clamp_initial_vector :
  clamp bounds parameters = [0.33; 3.2; 1.2; 1; 1.2; 1; 1; 0.1].
Proof. reflexivity. Qed.

Example clamp_both_sides :
  clamp bounds [0.7; 0; 1.2; 1; 1.2; 1; 1; 0.5] = [0.6; 1; 1.2; 1; 1.2; 1; 1; 0.5].
Proof. reflexivity. Qed.

Lemma penalty_correct_witness :
  exists m p : Q,
    toy_evaluate parameters Obj = Ok (Objective m) /\
    toy_evaluate parameters ObjP = Ok (Penalized p) /\
    (Forall (fun x => 0 <= x)
       (toy_margins (clamp bounds parameters)
          (solve toy_total 1e-6 100 (clamp bounds parameters))) -> p == m) /\
    (Exists (fun x => x < 0)
       (toy_margins (clamp bounds parameters)
          (solve toy_total 1e-6 100 (clamp bounds parameters))) -> m < p).
Proof.
  apply (penalty_correct toy_total toy_margins 1e9 1e-6 100 parameters).
  vm_compute. reflexivity.
Defined.

(** Under the other policy the same vector is rejected. *)
Example reject_policy_raises :
  evaluate_with toy_total toy_margins 1e9 1e-6 100 Reject parameters Obj
  = Raised BoundViolation.
Proof. vm_compute. reflexivity. Qed.

(** The toy instance at the initial vector is infeasible and penalised. *)
Example toy_initial_infeasible :
  feasible (toy_margins (clamp bounds parameters)
              (solve toy_total 1e-6 100 (clamp bounds parameters))) = false.
Proof. vm_compute. reflexivity. Qed.

(** ** The writer monad and the solvers *)

Lemma log_bind {A B} (m : Py A) (f : A -> Py B) :
  log (bind m f) = log m ++ log (f (value m)).
Proof. unfold log, value, bind. destruct (f (fst m)). reflexivity. Qed.


(** Whatever a solver does, the events of its run are events of the callables
    it was given. *)
Lemma search_events {kw : Kwargs} {R : Type} (P : Event -> Prop)
  (s : Search kw R) :
  (forall name f x, keyword name kw = Some (AFun f) -> Forall P (log (f x))) ->
  Forall P (log (run_search s)).
Proof.
  intro Hkw. induction s as [r | name f supplied x k IH]; simpl.
  - constructor.
  - rewrite log_bind. apply Forall_app. split.
    + exact (Hkw name f x supplied).
    + apply IH.
Qed.

Lemma sizing_code_log (w : World) (x : vec) (mode : string) :
  sizing_code w x mode = (model w x mode, [ESizing x mode]).
Proof. reflexivity. Qed.

Lemma de_callables (w : World) (name : string) (f : vec -> Py Value) :
  keyword name (de_kwargs w) = Some (AFun f) -> f = objectifP w.
Proof.
  unfold de_kwargs. simpl.
  destruct (String.eqb name "func"); [intros [= <-]; reflexivity|].
  destruct (String.eqb name "bounds"); [discriminate|].
  destruct (String.eqb name "tol"); discriminate.
Qed.

Lemma slsqp_callables (w : World) (name : string) (f : vec -> Py Value) :
  keyword name (slsqp_kwargs w) = Some (AFun f) ->
  f = objectif w \/ f = contrainte w.
Proof.
  unfold slsqp_kwargs. simpl.
  destruct (String.eqb name "func"); [intros [= <-]; left; reflexivity|].
  destruct (String.eqb name "x0"); [discriminate|].
  destruct (String.eqb name "bounds"); [discriminate|].
  destruct (String.eqb name "f_ieqcons"); [intros [= <-]; right; reflexivity|].
  destruct (String.eqb name "iter"); [discriminate|].
  destruct (String.eqb name "acc"); discriminate.
Qed.

Lemma de_search_events (w : World) :
  Forall (sizing_in ["ObjP"])
    (log (run_search (differential_evolution w (de_kwargs w)))).
Proof.
  apply search_events. intros name f x H.
  rewrite (de_callables w name f H).
  constructor; [|constructor].
  exists x, "ObjP". split; [reflexivity | left; reflexivity].
Qed.

Lemma slsqp_search_events (w : World) :
  Forall (sizing_in ["Obj"; "Const"])
    (log (run_search (fmin_slsqp w (slsqp_kwargs w)))).
Proof.
  apply search_events. intros name f x H.
  destruct (slsqp_callables w name f H) as [-> | ->];
    (constructor; [|constructor]).
  - exists x, "Obj". split; [reflexivity | left; reflexivity].
  - exists x, "Const". split; [reflexivity | right; left; reflexivity].
Qed.

Lemma sizing_in_weaken (ms ms' : list string) (l : list Event) :
  incl ms ms' -> Forall (sizing_in ms) l -> Forall (sizing_in ms') l.
Proof.
  intros Hi H. induction H as [|e l (x & m & -> & Hm) _ IH]; constructor.
  - exists x, m. split; [reflexivity | apply Hi, Hm].
  - exact IH.
Qed.

Lemma sizing_in_modes (ms : list string) (l : list Event) :
  Forall (sizing_in ms) l -> Forall (fun m => In m ms) (sizing_modes l).
Proof.
  induction 1 as [|e l (x & m & -> & Hm) _ IH]; [constructor|].
  change (Forall (fun m => In m ms) (m :: sizing_modes l)).
  constructor; [exact Hm | exact IH].
Qed.


Lemma sizing_modes_app (l l' : list Event) :
  sizing_modes (l ++ l') = sizing_modes l ++ sizing_modes l'.
Proof. apply flat_map_app. Qed.

Lemma solvers_app (l l' : list Event) : solvers (l ++ l') = solvers l ++ solvers l'.
Proof. apply flat_map_app. Qed.

Lemma log_call {R} (name : string) (solver : forall kw : Kwargs, Search kw R)
  (kw : Kwargs) :
  log (call name solver kw) = ESolver name (map fst kw) :: log (run_search (solver kw)).
Proof. unfold call. rewrite log_bind. reflexivity. Qed.


Lemma log_final_report (w : World) (slsqp : bool) (result : ResultT slsqp) :
  log (final_report w slsqp result) =
  [EPrint dashes; EPrint "Final characteristics after optimization :";
   ESizing (best slsqp result) "Obj"; ESizing (best slsqp result) "Prt";
   EPrint dashes].
Proof. reflexivity. Qed.


Lemma log_run (w : World) (slsqp : bool) :
  log (run w slsqp) =
  log (initial_report w) ++ log (optimize w slsqp) ++
  log (final_report w slsqp (value (optimize w slsqp))).
Proof.
  unfold run, optimization. rewrite !log_bind. reflexivity.
Qed.

Lemma optimize_events (w : World) (slsqp : bool) :
  exists search,
    log (optimize w slsqp) =
      ESolver (if slsqp then "scipy.optimize.fmin_slsqp"
               else "scipy.optimize.differential_evolution")
              (map fst (if slsqp then slsqp_kwargs w else de_kwargs w)) :: search /\
    Forall (sizing_in (if slsqp then ["Obj"; "Const"] else ["ObjP"])) search.
Proof.
  destruct slsqp; simpl optimize; rewrite log_call; eexists; split;
    try reflexivity.
  - apply slsqp_search_events.
  - apply de_search_events.
Qed.

Lemma report_points_app (l l' : list Event) :
  report_points (l ++ l') = report_points l ++ report_points l'.
Proof. apply flat_map_app. Qed.

(** A search run against callables that log one evaluation and return the
    value of an oracle is the search answered by the oracle. *)
Lemma run_search_oracle {kw : Kwargs} {R : Type}
  (oracle : string -> vec -> Value) (mode : string -> string) (s : Search kw R) :
  (forall name f x, keyword name kw = Some (AFun f) ->
     f x = (oracle name x, [ESizing x (mode name)])) ->
  run_search s =
    (fst (run_oracle oracle s), asked_events mode (snd (run_oracle oracle s))).
Proof.
  intro Hkw. induction s as [r | name f supplied x k IH]; simpl.
  - reflexivity.
  - unfold bind. rewrite (Hkw name f x supplied). simpl.
    rewrite (IH (oracle name x)).
    destruct (run_oracle oracle (k (oracle name x))) as [r asked]. reflexivity.
Qed.

Lemma slsqp_callables_oracle (w : World) (name : string) (f : vec -> Py Value)
  (x : vec) :
  keyword name (slsqp_kwargs w) = Some (AFun f) ->
  f x = (slsqp_oracle w name x, [ESizing x (slsqp_mode name)]).
Proof.
  unfold slsqp_kwargs, slsqp_oracle, slsqp_mode. simpl.
  destruct (String.eqb name "func") eqn:E1; [intros [= <-]; reflexivity|].
  destruct (String.eqb name "x0"); [discriminate|].
  destruct (String.eqb name "bounds"); [discriminate|].
  destruct (String.eqb name "f_ieqcons"); [intros [= <-]; reflexivity|].
  destruct (String.eqb name "iter"); [discriminate|].
  destruct (String.eqb name "acc"); discriminate.
Qed.

Lemma de_callables_oracle (w : World) (name : string) (f : vec -> Py Value)
  (x : vec) :
  keyword name (de_kwargs w) = Some (AFun f) ->
  f x = (de_oracle w name x, [ESizing x "ObjP"]).
Proof.
  intro H. rewrite (de_callables w name f H). reflexivity.
Qed.

Lemma de_search_oracle (w : World) :
  run_search (differential_evolution w (de_kwargs w)) =
    (fst (run_oracle (de_oracle w) (differential_evolution w (de_kwargs w))),
     asked_events (fun _ => "ObjP")
       (snd (run_oracle (de_oracle w) (differential_evolution w (de_kwargs w))))).
Proof.
  apply run_search_oracle. intros name f x H. apply de_callables_oracle, H.
Qed.

Lemma slsqp_search_oracle (w : World) :
  run_search (fmin_slsqp w (slsqp_kwargs w)) =
    (fst (run_oracle (slsqp_oracle w) (fmin_slsqp w (slsqp_kwargs w))),
     asked_events slsqp_mode
       (snd (run_oracle (slsqp_oracle w) (fmin_slsqp w (slsqp_kwargs w))))).
Proof.
  apply run_search_oracle. intros name f x H. apply slsqp_callables_oracle, H.
Qed.

Lemma sizing_modes_asked (mode : string -> string) (asked : list (string * vec)) :
  sizing_modes (asked_events mode asked) = map (fun q => mode (fst q)) asked.
Proof.
  induction asked as [|q asked IH]; [reflexivity|].
  simpl. f_equal. exact IH.
Qed.

Lemma map_const_repeat {A B} (b : B) (l : list A) :
  map (fun _ => b) l = repeat b (List.length l).
Proof. induction l as [|a l IH]; simpl; [reflexivity | f_equal; exact IH]. Qed.

Lemma slsqp_mode_cases (name : string) :
  slsqp_mode name = "Obj" \/ slsqp_mode name = "Const".
Proof. unfold slsqp_mode. destruct (String.eqb name "func"); auto. Qed.

(** ** The view of a solver *)

(** Every question of a search is put to a callable that the call supplied. *)
Lemma asked_supplied {kw : Kwargs} {R : Type} (oracle : string -> vec -> Value)
  (s : Search kw R) :
  Forall (fun q => exists f, keyword (fst q) kw = Some (AFun f))
    (snd (run_oracle oracle s)).
Proof.
  induction s as [r | name f supplied x k IH]; simpl.
  - constructor.
  - specialize (IH (oracle name x)).
    destruct (run_oracle oracle (k (oracle name x))) as [r asked].
    constructor; [exists f; exact supplied | exact IH].
Qed.

Lemma slsqp_callable_keywords (w : World) (name : string) (f : vec -> Py Value) :
  keyword name (slsqp_kwargs w) = Some (AFun f) ->
  name = "func" \/ name = "f_ieqcons".
Proof.
  unfold slsqp_kwargs. simpl.
  destruct (String.eqb_spec name "func") as [-> | _]; [left; reflexivity|].
  destruct (String.eqb name "x0"); [discriminate|].
  destruct (String.eqb name "bounds"); [discriminate|].
  destruct (String.eqb_spec name "f_ieqcons") as [-> | _]; [right; reflexivity|].
  destruct (String.eqb name "iter"); [discriminate|].
  destruct (String.eqb name "acc"); discriminate.
Qed.

Lemma de_callable_keywords (w : World) (name : string) (f : vec -> Py Value) :
  keyword name (de_kwargs w) = Some (AFun f) -> name = "func".
Proof.
  unfold de_kwargs. simpl.
  destruct (String.eqb_spec name "func") as [-> | _]; [reflexivity|].
  destruct (String.eqb name "bounds"); [discriminate|].
  destruct (String.eqb name "tol"); discriminate.
Qed.

Lemma slsqp_asked_keywords (w : World) :
  Forall (fun q => fst q = "func" \/ fst q = "f_ieqcons")
    (snd (run_oracle (slsqp_oracle w) (fmin_slsqp w (slsqp_kwargs w)))).
Proof.
  eapply Forall_impl; [|apply asked_supplied].
  intros q [f Hf]. exact (slsqp_callable_keywords w _ f Hf).
Qed.

Lemma de_asked_keywords (w : World) :
  Forall (fun q => fst q = "func")
    (snd (run_oracle (de_oracle w) (differential_evolution w (de_kwargs w)))).
Proof.
  eapply Forall_impl; [|apply asked_supplied].
  intros q [f Hf]. exact (de_callable_keywords w _ f Hf).
Qed.

Lemma optimize_slsqp (w : World) :
  optimize w true =
    (fst (run_oracle (slsqp_oracle w) (fmin_slsqp w (slsqp_kwargs w))),
     ESolver "scipy.optimize.fmin_slsqp"
       ["func"; "x0"; "bounds"; "f_ieqcons"; "iter"; "acc"]
     :: asked_events slsqp_mode
          (snd (run_oracle (slsqp_oracle w) (fmin_slsqp w (slsqp_kwargs w))))).
Proof.
  unfold optimize, call, bind, tell. rewrite (slsqp_search_oracle w). reflexivity.
Qed.

Lemma optimize_de (w : World) :
  optimize w false =
    (fst (run_oracle (de_oracle w) (differential_evolution w (de_kwargs w))),
     ESolver "scipy.optimize.differential_evolution" ["func"; "bounds"; "tol"]
     :: asked_events (fun _ => "ObjP")
          (snd (run_oracle (de_oracle w) (differential_evolution w (de_kwargs w))))).
Proof.
  unfold optimize, call, bind, tell. rewrite (de_search_oracle w). reflexivity.
Qed.



Lemma calls_app (l l' : list Event) : calls (l ++ l') = calls l ++ calls l'.
Proof. apply filter_app. Qed.

Lemma calls_asked (mode : string -> string) (asked : list (string * vec)) :
  calls (asked_events mode asked) = asked_events mode asked.
Proof.
  induction asked as [|q asked IH]; [reflexivity|].
  simpl. f_equal. exact IH.
Qed.

Lemma report_points_asked (mode : string -> string) (asked : list (string * vec)) :
  (forall name, mode name <> "Prt") ->
  report_points (asked_events mode asked) = [].
Proof.
  intro Hmode. induction asked as [|q asked IH]; [reflexivity|].
  simpl. destruct (String.eqb_spec (mode (fst q)) "Prt") as [E | _].
  - destruct (Hmode _ E).
  - exact IH.
Qed.

Lemma slsqp_mode_not_report (name : string) : slsqp_mode name <> "Prt".
Proof. unfold slsqp_mode. destruct (String.eqb name "func"); discriminate. Qed.


(** ** The notebook *)

(** C2, as stated, fails: the run of the notebook calls [sizing_code] with the
    mode 'Prt', which is none of Obj, ObjP, Const, Report, and never with a
    mode 'Report'. *)
Lemma report_mode_is_not_Report :
  In "Prt" (sizing_modes (log (notebook test_world))) /\
  ~ In "Prt" spec_mode_tags /\
  ~ In "Report" (sizing_modes (log (notebook test_world))).
Proof.
  vm_compute. split; [|split].
  - left. reflexivity.
  - intros [H|[H|[H|[H|[]]]]]; discriminate.
  - intros [H|[H|[H|[H|[]]]]]; discriminate.
Qed.

(** C2, amended.  Whatever the model and the solvers, and for either value of
    the strategy flag, every mode passed to [sizing_code] during a run of the
    notebook is one of 'Obj', 'ObjP', 'Const', 'Prt': the three callables
    handed to the solvers use 'Const', 'Obj' and 'ObjP', the report before
    the optimisation uses 'Prt', the report after it 'Obj' then 'Prt'; the
    string 'Report' is not among them. *)
Theorem notebook_modes (w : World) (slsqp : bool) :
  Forall (fun m => In m notebook_mode_tags) (sizing_modes (log (run w slsqp))) /\
  (forall x, log (contrainte w x) = [ESizing x "Const"]) /\
  (forall x, log (objectif w x) = [ESizing x "Obj"]) /\
  (forall x, log (objectifP w x) = [ESizing x "ObjP"]) /\
  sizing_modes (log (initial_report w)) = ["Prt"] /\
  (forall result, sizing_modes (log (final_report w slsqp result)) = ["Obj"; "Prt"]) /\
  ~ In "Report" notebook_mode_tags.
Proof.
  split; [|repeat split; try reflexivity].
  - rewrite log_run, !sizing_modes_app. apply Forall_app. split; [|apply Forall_app; split].
    + simpl. constructor; [|constructor]. unfold notebook_mode_tags. simpl. tauto.
    + destruct (optimize_events w slsqp) as (search & -> & Hs).
      change (Forall (fun m => In m notebook_mode_tags) (sizing_modes search)).
      apply sizing_in_modes.
      apply sizing_in_weaken with (ms := if slsqp then ["Obj"; "Const"] else ["ObjP"]);
        [|exact Hs].
      destruct slsqp; intros m Hm; simpl in *; unfold notebook_mode_tags; simpl; tauto.
    + simpl. repeat constructor; unfold notebook_mode_tags; simpl; tauto.
  - unfold notebook_mode_tags. intros [H|[H|[H|[H|[]]]]]; discriminate.
Qed.


(** C5.  With the flag set, the optimisation step enters
    scipy.optimize.fmin_slsqp with the keywords func, x0, bounds, f_ieqcons,
    iter and acc, and returns what the solver returns when its questions are
    answered by the model: a question to func by [sizing_code] in mode 'Obj',
    a question to f_ieqcons (the inequality constraints, which the solver
    keeps non-negative) by [sizing_code] in mode 'Const', each at the point
    asked.  The solver receives the initial vector as x0 and the table of
    bounds as bounds.  It receives no equality constraint and no derivative,
    and every one of its questions is to func or to f_ieqcons: what it
    learns of the gradients, it learns from values of the two. *)
Theorem gradient_strategy (w : World) :
  optimize w true =
    (fst (run_oracle (slsqp_oracle w) (fmin_slsqp w (slsqp_kwargs w))),
     ESolver "scipy.optimize.fmin_slsqp"
       ["func"; "x0"; "bounds"; "f_ieqcons"; "iter"; "acc"]
     :: asked_events slsqp_mode
          (snd (run_oracle (slsqp_oracle w) (fmin_slsqp w (slsqp_kwargs w))))) /\
  (forall x, slsqp_oracle w "func" x = model w x "Obj") /\
  (forall x, slsqp_oracle w "f_ieqcons" x = model w x "Const") /\
  slsqp_mode "func" = "Obj" /\
  slsqp_mode "f_ieqcons" = "Const" /\
  Forall (fun q => fst q = "func" \/ fst q = "f_ieqcons")
    (snd (run_oracle (slsqp_oracle w) (fmin_slsqp w (slsqp_kwargs w)))) /\
  keyword "x0" (slsqp_kwargs w) = Some (AVec parameters) /\
  keyword "bounds" (slsqp_kwargs w) = Some (ABounds bounds) /\
  keyword "f_eqcons" (slsqp_kwargs w) = None /\
  keyword "fprime" (slsqp_kwargs w) = None /\
  keyword "fprime_ieqcons" (slsqp_kwargs w) = None /\
  keyword "fprime_eqcons" (slsqp_kwargs w) = None.
Proof.
  split; [exact (optimize_slsqp w)|].
  split; [reflexivity|]. split; [reflexivity|].
  split; [reflexivity|]. split; [reflexivity|].
  split; [exact (slsqp_asked_keywords w)|].
  repeat (split; [reflexivity|]). reflexivity.
Qed.

(** C6.  With the flag cleared, the optimisation step enters
    scipy.optimize.differential_evolution with the keywords func, bounds and
    tol only, and returns what the solver returns when each of its questions
    is answered by [sizing_code] in mode 'ObjP' at the point asked.  The
    solver receives the table of bounds as bounds; it receives no starting
    point, no constraint and no derivative, and every one of its questions
    is to func, the penalised objective. *)
Theorem stochastic_strategy (w : World) :
  optimize w false =
    (fst (run_oracle (de_oracle w) (differential_evolution w (de_kwargs w))),
     ESolver "scipy.optimize.differential_evolution" ["func"; "bounds"; "tol"]
     :: asked_events (fun _ => "ObjP")
          (snd (run_oracle (de_oracle w) (differential_evolution w (de_kwargs w))))) /\
  (forall name x, de_oracle w name x = model w x "ObjP") /\
  Forall (fun q => fst q = "func")
    (snd (run_oracle (de_oracle w) (differential_evolution w (de_kwargs w)))) /\
  keyword "bounds" (de_kwargs w) = Some (ABounds bounds) /\
  keyword "x0" (de_kwargs w) = None /\
  keyword "constraints" (de_kwargs w) = None /\
  keyword "f_ieqcons" (de_kwargs w) = None /\
  keyword "jac" (de_kwargs w) = None /\
  keyword "fprime" (de_kwargs w) = None.
Proof.
  split; [exact (optimize_de w)|].
  split; [reflexivity|].
  split; [exact (de_asked_keywords w)|].
  repeat (split; [reflexivity|]). reflexivity.
Qed.



(** On the side of the specification: one evaluation in mode Report carries the
    design point whose total mass is the output of mode Obj on the same
    coefficients; both are computed by the same resolution. *)
Remark report_consistent_with_obj
  (sized_total : vec -> Q -> Q) (margins : vec -> DesignPoint -> list Q)
  (penalty_weight tolerance : Q) (max_iterations : nat) (c : vec) :
  exists dp,
    evaluate sized_total margins penalty_weight tolerance max_iterations c Report
      = Ok (Reported dp (margins (clamp bounds c) dp)) /\
    evaluate sized_total margins penalty_weight tolerance max_iterations c Obj
      = Ok (Objective (total_mass dp)).
Proof. eexists. split; reflexivity. Qed.

(** The mission and the architecture of the end-to-end scenario. *)
Remark scenario_constants :
  M_pay == 100 /\ t_hov_spec == 25 /\ a_to == 0.25 * 9.81 /\ MTOW == 360 /\
  N_arm = 4%Z /\ N_pro_arm = 2%Z /\ N_pro = 8%Z /\
  parameters = [0.33; 3.2; 1.2; 1; 1.2; 1; 1; 0.01].
Proof. repeat split; reflexivity. Qed.

(** Runs of the notebook in the test world. *)
Example shipped_run :
  calls (log (notebook test_world)) =
  [ESizing parameters "Prt";
   ESolver "scipy.optimize.differential_evolution" ["func"; "bounds"; "tol"];
   ESizing (map fst bounds) "ObjP";
   ESizing (map fst bounds) "Obj";
   ESizing (map fst bounds) "Prt"].
Proof. reflexivity. Qed.

Example slsqp_run :
  calls (log (run test_world true)) =
  [ESizing parameters "Prt";
   ESolver "scipy.optimize.fmin_slsqp"
     ["func"; "x0"; "bounds"; "f_ieqcons"; "iter"; "acc"];
   ESizing parameters "Obj";
   ESizing parameters "Const";
   ESizing parameters "Obj";
   ESizing parameters "Prt"].
Proof. reflexivity. Qed.

(** * Further properties of the notebook *)

(** X1.  Whatever the model and the solver do, a run of the notebook
    evaluates the printing mode 'Prt' exactly twice: on the initial vector,
    and on the vector the solver returned ([result] of fmin_slsqp with the
    flag set, [result.x] of differential evolution otherwise).  No report is
    produced during the search. *)
Theorem report_evaluated_twice (w : World) :
  report_points (log (run w true)) =
    [parameters;
     fst (run_oracle (slsqp_oracle w) (fmin_slsqp w (slsqp_kwargs w)))] /\
  report_points (log (run w false)) =
    [parameters;
     OptimizeResult.x
       (fst (run_oracle (de_oracle w) (differential_evolution w (de_kwargs w))))].
Proof.
  split.
  - rewrite log_run, (optimize_slsqp w), !report_points_app.
    unfold log at 2, value. cbn [fst snd].
    change (report_points (ESolver ?n ?k :: ?l)) with (report_points l).
    rewrite (report_points_asked _ _ slsqp_mode_not_report). reflexivity.
  - rewrite log_run, (optimize_de w), !report_points_app.
    unfold log at 2, value. cbn [fst snd].
    change (report_points (ESolver ?n ?k :: ?l)) with (report_points l).
    rewrite report_points_asked by discriminate. reflexivity.
Qed.

(** X2.  For either value of the flag, a run enters exactly one solver, the
    one the flag selects.  Its calls are, in order: the evaluation of the
    initial vector in mode 'Prt', the entry into the solver, one evaluation
    of the model per question of the solver, and the evaluations of the
    vector the solver returned in mode 'Obj' and in mode 'Prt'. *)
Theorem run_structure (w : World) :
  calls (log (run w true)) =
    ESizing parameters "Prt"
    :: ESolver "scipy.optimize.fmin_slsqp"
         ["func"; "x0"; "bounds"; "f_ieqcons"; "iter"; "acc"]
    :: asked_events slsqp_mode
         (snd (run_oracle (slsqp_oracle w) (fmin_slsqp w (slsqp_kwargs w))))
    ++ [ESizing (fst (run_oracle (slsqp_oracle w) (fmin_slsqp w (slsqp_kwargs w))))
          "Obj";
        ESizing (fst (run_oracle (slsqp_oracle w) (fmin_slsqp w (slsqp_kwargs w))))
          "Prt"] /\
  calls (log (run w false)) =
    ESizing parameters "Prt"
    :: ESolver "scipy.optimize.differential_evolution" ["func"; "bounds"; "tol"]
    :: asked_events (fun _ => "ObjP")
         (snd (run_oracle (de_oracle w) (differential_evolution w (de_kwargs w))))
    ++ [ESizing
          (OptimizeResult.x
             (fst (run_oracle (de_oracle w) (differential_evolution w (de_kwargs w)))))
          "Obj";
        ESizing
          (OptimizeResult.x
             (fst (run_oracle (de_oracle w) (differential_evolution w (de_kwargs w)))))
          "Prt"] /\
  solvers (log (run w true)) = ["scipy.optimize.fmin_slsqp"] /\
  solvers (log (run w false)) = ["scipy.optimize.differential_evolution"].
Proof.
  assert (Hs : forall mode asked, solvers (asked_events mode asked) = []).
  { intros mode asked. induction asked as [|q asked IH]; [reflexivity | exact IH]. }
  split; [|split; [|split]].
  - rewrite log_run, (optimize_slsqp w), !calls_app.
    unfold log at 2, value. cbn [fst snd].
    change (calls (ESolver ?n ?k :: ?l)) with (ESolver n k :: calls l).
    rewrite calls_asked. reflexivity.
  - rewrite log_run, (optimize_de w), !calls_app.
    unfold log at 2, value. cbn [fst snd].
    change (calls (ESolver ?n ?k :: ?l)) with (ESolver n k :: calls l).
    rewrite calls_asked. reflexivity.
  - rewrite log_run, (optimize_slsqp w), !solvers_app.
    unfold log at 2, value. cbn [fst snd].
    change (solvers (ESolver ?n ?k :: ?l)) with (n :: solvers l).
    rewrite Hs. reflexivity.
  - rewrite log_run, (optimize_de w), !solvers_app.
    unfold log at 2, value. cbn [fst snd].
    change (solvers (ESolver ?n ?k :: ?l)) with (n :: solvers l).
    rewrite Hs. reflexivity.
Qed.

(** X3.  What a solver sees of the model is the model itself: the search of
    differential evolution proceeds as if every question were answered by
    the model in mode 'ObjP' at the point asked, and the search of fmin_slsqp
    as if func were answered in mode 'Obj' and f_ieqcons in mode 'Const'.
    Each question costs exactly one evaluation of the model, at the point
    asked, and the evaluations are logged in the order of the questions. *)
Theorem solver_sees_model (w : World) :
  run_search (differential_evolution w (de_kwargs w)) =
    (fst (run_oracle (de_oracle w) (differential_evolution w (de_kwargs w))),
     asked_events (fun _ => "ObjP")
       (snd (run_oracle (de_oracle w) (differential_evolution w (de_kwargs w))))) /\
  run_search (fmin_slsqp w (slsqp_kwargs w)) =
    (fst (run_oracle (slsqp_oracle w) (fmin_slsqp w (slsqp_kwargs w))),
     asked_events slsqp_mode
       (snd (run_oracle (slsqp_oracle w) (fmin_slsqp w (slsqp_kwargs w))))).
Proof.
  split; [apply de_search_oracle | apply slsqp_search_oracle].
Qed.

(** X4.  A run depends on its environment through the model and the selected
    solver only: two environments with the same model and the same selected
    solver give the same run, whatever their other solver is. *)
Theorem unselected_solver_irrelevant (w w' : World) (slsqp : bool) :
  model w = model w' ->
  same_selected_solver w w' slsqp ->
  run w slsqp = run w' slsqp.
Proof.
  destruct w as [m s d], w' as [m' s' d']. simpl. intros <-.
  destruct slsqp; simpl; intros <-; reflexivity.
Qed.

(** The shipped run in two test worlds that differ in their SLSQP. *)
Lemma unselected_solver_irrelevant_witness :
  run test_world false = run idle_slsqp_world false.
Proof.
  apply (unselected_solver_irrelevant test_world idle_slsqp_world false);
    reflexivity.
Defined.

(** X5.  The shipped notebook evaluates the model once in mode 'Prt', then
    once in mode 'ObjP' for each question of differential evolution, then
    once in mode 'Obj' and once in mode 'Prt': three evaluations more than
    the solver asks for.  In particular the constraints (mode 'Const') are
    never evaluated, not even on the vector that is reported. *)
Theorem shipped_evaluations (w : World) :
  sizing_modes (log (notebook w)) =
    "Prt" ::
    repeat "ObjP"
      (List.length
         (snd (run_oracle (de_oracle w) (differential_evolution w (de_kwargs w)))))
    ++ ["Obj"; "Prt"] /\
  List.length (sizing_modes (log (notebook w))) =
    (List.length
       (snd (run_oracle (de_oracle w) (differential_evolution w (de_kwargs w))))
     + 3)%nat /\
  ~ In "Const" (sizing_modes (log (notebook w))).
Proof.
  assert (E : sizing_modes (log (notebook w)) =
    "Prt" ::
    repeat "ObjP"
      (List.length
         (snd (run_oracle (de_oracle w) (differential_evolution w (de_kwargs w)))))
    ++ ["Obj"; "Prt"]).
  { unfold notebook, SLSQP. rewrite log_run, !sizing_modes_app.
    simpl optimize. rewrite log_call.
    change (ResultT false) with OptimizeResult.t.
    rewrite (de_search_oracle w).
    change (sizing_modes (ESolver ?n ?k :: ?l)) with (sizing_modes l).
    unfold log at 2. cbn [snd].
    rewrite sizing_modes_asked, map_const_repeat. reflexivity. }
  split; [exact E|]. split.
  - rewrite E. simpl. rewrite length_app, repeat_length. simpl. lia.
  - rewrite E. intros [H | H]; [discriminate|].
    apply in_app_or in H. destruct H as [H | [H | [H | []]]]; try discriminate.
    apply repeat_spec in H. discriminate.
Qed.

(** X6.  With the flag set, a run evaluates the model once in mode 'Prt',
    then once per question of fmin_slsqp, in mode 'Obj' for a question to
    func and in mode 'Const' for a question to f_ieqcons, then once in mode
    'Obj' and once in mode 'Prt'.  The penalised objective (mode 'ObjP') is
    never evaluated. *)
Theorem gradient_evaluations (w : World) :
  sizing_modes (log (run w true)) =
    "Prt" ::
    map (fun q => slsqp_mode (fst q))
      (snd (run_oracle (slsqp_oracle w) (fmin_slsqp w (slsqp_kwargs w))))
    ++ ["Obj"; "Prt"] /\
  List.length (sizing_modes (log (run w true))) =
    (List.length
       (snd (run_oracle (slsqp_oracle w) (fmin_slsqp w (slsqp_kwargs w))))
     + 3)%nat /\
  ~ In "ObjP" (sizing_modes (log (run w true))).
Proof.
  assert (E : sizing_modes (log (run w true)) =
    "Prt" ::
    map (fun q => slsqp_mode (fst q))
      (snd (run_oracle (slsqp_oracle w) (fmin_slsqp w (slsqp_kwargs w))))
    ++ ["Obj"; "Prt"]).
  { rewrite log_run, !sizing_modes_app.
    simpl optimize. rewrite log_call.
    change (ResultT true) with vec.
    rewrite (slsqp_search_oracle w).
    change (sizing_modes (ESolver ?n ?k :: ?l)) with (sizing_modes l).
    unfold log at 2. cbn [snd].
    rewrite sizing_modes_asked. reflexivity. }
  split; [exact E|]. split.
  - rewrite E. simpl. rewrite length_app, length_map. simpl. lia.
  - rewrite E. intros [H | H]; [discriminate|].
    apply in_app_or in H. destruct H as [H | [H | [H | []]]]; try discriminate.
    apply in_map_iff in H. destruct H as (q & Hq & _).
    destruct (slsqp_mode_cases (fst q)) as [E' | E']; rewrite E' in Hq; discriminate.
Qed.

(** Runs in the test world, read with the definitions above. *)
Example shipped_report_points :
  report_points (log (notebook test_world)) = [parameters; map fst bounds].
Proof. reflexivity. Qed.

Example slsqp_asks :
  snd (run_oracle (slsqp_oracle test_world)
         (fmin_slsqp test_world (slsqp_kwargs test_world)))
  = [("func", parameters); ("f_ieqcons", parameters)].
Proof. reflexivity. Qed.
